(** * UCB1 arm allocation (moe/bandit/ucb1.py)

    A shallow embedding of [UCB1.get_unsampled_arm_names],
    [UCB1.get_winning_arm_names] and [UCB1.allocate_arms], and the
    properties of the allocation they compute.

    Conventions of the embedding:
    - a Python [dict] is an association list in its iteration order; the
      dict invariant (keys are unique) is the hypothesis
      [NoDup (map fst d)] wherever a statement needs it;
    - a [frozenset] of arm names is a [gset string], the returned
      allocation dict is a [gmap string R];
    - [float] / [numpy.float64] values are real numbers: rounding, NaN and
      infinities are not part of the model;
    - [raise] is the [Raise] constructor of a small error monad, and the
      partial operations of [math] and of float division report the
      exception Python raises. *)

From Stdlib Require Import Reals Lra Lia.
From stdpp Require Import gmap strings list fin_maps sorting.

#[local] Open Scope R_scope.

(** ** Exceptions and the error monad *)

Inductive exception : Type :=
  | ValueError (msg : string)
  | ZeroDivisionError (msg : string)
  | AssertionError.

Inductive result (A : Type) : Type :=
  | Ok (a : A)
  | Raise (e : exception).
Arguments Ok {A} a.
Arguments Raise {A} e.

Definition bind {A B : Type} (m : result A) (k : A -> result B) : result B :=
  match m with
  | Ok a => k a
  | Raise e => Raise e
  end.

Notation "'let*' x ':=' m 'in' k" := (bind m (fun x => k))
  (at level 10, x name, m at level 100, k at level 200).

(** [for x in l: ... append(f x)], stopping at the first exception. *)
Fixpoint for_each {A B : Type} (f : A -> result B) (l : list A) : result (list B) :=
  match l with
  | [] => Ok []
  | x :: xs => let* y := f x in let* ys := for_each f xs in Ok (y :: ys)
  end.

(** ** Data model *)

(** [moe.bandit.data_containers.SampleArm]: the fields the policy reads.
    [win] and [loss] are floats, [total] is a count of trials and so a
    natural number. *)
Record SampleArm : Type := mkSampleArm {
  win : R;
  loss : R;
  total : nat
}.

(** A dict from arm name to [V], in iteration order. *)
Definition py_dict (V : Type) : Type := list (string * V).

Definition iterkeys {V : Type} (d : py_dict V) : list string := map fst d.
Definition itervalues {V : Type} (d : py_dict V) : list V := map snd d.

Record HistoricalInfo : Type := mkHistoricalInfo {
  arms_sampled : py_dict SampleArm
}.

(** The policy object: the held history and the subtype tag. *)
Record UCB1 : Type := mkUCB1 {
  _historical_info : HistoricalInfo;
  subtype : string
}.

Definition UCB_SUBTYPE_1 : string := "UCB1".

Definition UCB1_init (historical_info : HistoricalInfo) : UCB1 :=
  {| _historical_info := historical_info; subtype := UCB_SUBTYPE_1 |}.

(** ** Numeric primitives *)

#[global] Instance R_eq_dec : EqDecision R := Req_dec_T.
#[global] Instance Rlt_decision (x y : R) : Decision (x < y) := Rlt_dec x y.
#[global] Instance Rgt_decision (x y : R) : Decision (x > y) := Rgt_dec x y.

(** [math.log] on an integer argument. *)
Definition math_log (n : nat) : result R :=
  if Nat.eqb n 0 then Raise (ValueError "math domain error") else Ok (ln (INR n)).

(** [math.sqrt]. *)
Definition math_sqrt (x : R) : result R :=
  if decide (x < 0) then Raise (ValueError "math domain error") else Ok (sqrt x).

(** [x / n] for a Python float [x] and an int [n]. *)
Definition float_div (x : R) (n : nat) : result R :=
  if Nat.eqb n 0 then Raise (ZeroDivisionError "float division by zero")
  else Ok (x / INR n).

(** [sum] of a list of ints. *)
Definition sum (l : list nat) : nat := foldr Nat.add O l.

(** ** Tuple comparison and [max] *)

Definition str_gt (a b : string) : bool :=
  match String.compare a b with
  | Gt => true
  | _ => false
  end.

(** [x > y] on [(float, str)] tuples: the first components decide unless
    they are equal. *)
Definition tuple_gt (x y : R * string) : bool :=
  if decide (x.1 = y.1) then str_gt x.2 y.2 else bool_decide (x.1 > y.1).

(** [max] keeps the first item and replaces it by each later item that
    compares greater. *)
Definition py_max (l : list (R * string)) : result (R * string) :=
  match l with
  | [] => Raise (ValueError "max() arg is an empty sequence")
  | x :: xs => Ok (fold_left (fun m item => if tuple_gt item m then item else m) xs x)
  end.

(** [_, names = map(list, zip( *pairs ))]: unpacking two values fails when
    [pairs] is empty. *)
Definition unzip_names (pairs : list (R * string)) : result (list string) :=
  match pairs with
  | [] => Raise (ValueError "need more than 0 values to unpack")
  | _ :: _ => Ok (map snd pairs)
  end.

(** ** The policy *)

Definition is_unsampled (item : string * SampleArm) : bool :=
  Nat.eqb (total item.2) 0.

Definition get_unsampled_arm_names (arms : py_dict SampleArm) : result (gset string) :=
  match arms with
  | [] => Raise (ValueError "arms_sampled is empty!")
  | _ :: _ =>
      let unsampled_arm_name_list := map fst (List.filter is_unsampled arms) in
      Ok (list_to_set unsampled_arm_name_list)
  end.

Definition avg_payoff (sampled_arm : SampleArm) : R :=
  if Nat.ltb 0 (total sampled_arm)
  then (win sampled_arm - loss sampled_arm) / INR (total sampled_arm)
  else 0.

(** One iteration of the scoring loop (lines 80-83). *)
Definition ucb_payoff (number_sampled : nat) (item : string * SampleArm)
  : result (R * string) :=
  let '(arm_name, sampled_arm) := item in
  let* l := math_log (total sampled_arm) in
  let* q := float_div (2 * l) number_sampled in
  let* s := math_sqrt q in
  Ok (avg_payoff sampled_arm + s, arm_name).

Definition get_winning_arm_names (arms : py_dict SampleArm) : result (gset string) :=
  match arms with
  | [] => Raise (ValueError "arms_sampled is empty!")
  | _ :: _ =>
      let* unsampled_arm_names := get_unsampled_arm_names arms in
      if decide (unsampled_arm_names = ∅) then
        let number_sampled := sum (map total (itervalues arms)) in
        let* ucb_payoff_arm_name_list := for_each (ucb_payoff number_sampled) arms in
        let* best := py_max ucb_payoff_arm_name_list in
        let best_payoff := best.1 in
        let winning_arm_payoff_name_list :=
          List.filter (fun p => bool_decide (p.1 = best_payoff)) ucb_payoff_arm_name_list in
        let* winning_arm_name_list := unzip_names winning_arm_payoff_name_list in
        Ok (list_to_set winning_arm_name_list)
      else Ok unsampled_arm_names
  end.

(** Modelled from the spec: [get_equal_arm_allocations] of
    [moe.bandit.utils] (the AllocationUtility of the specification), which
    [allocate_arms] calls and which is not part of the sources at hand.
    Every winning arm receives [1 / |winning set|], every other arm of the
    full set receives [0], and the mapping covers every arm; a winning set
    that is empty or not a subset of the arm names is a programming error,
    reported as an assertion failure. *)
Definition get_equal_arm_allocations (arms : py_dict SampleArm)
    (winning_arm_names : gset string) : result (gmap string R) :=
  if decide (winning_arm_names = ∅) then Raise AssertionError
  else if decide (winning_arm_names ⊆ list_to_set (iterkeys arms)) then
    let winning_arm_allocation := 1 / INR (size winning_arm_names) in
    Ok (list_to_map
          (map (fun arm_name =>
                  (arm_name,
                   if decide (arm_name ∈ winning_arm_names)
                   then winning_arm_allocation else 0))
               (iterkeys arms)))
  else Raise AssertionError.

(** [allocate_arms] returns the policy object next to its result: the
    method assigns to no attribute, so the object comes back as it was. *)
Definition allocate_arms (self : UCB1) : UCB1 * result (gmap string R) :=
  let arms := arms_sampled (_historical_info self) in
  match arms with
  | [] => (self, Raise (ValueError "sample_arms are empty!"))
  | _ :: _ =>
      (self, let* winners := get_winning_arm_names arms in
             get_equal_arm_allocations arms winners)
  end.

(** The allocation computed for a history. *)
Definition allocation_of (arms : py_dict SampleArm) : result (gmap string R) :=
  (allocate_arms (UCB1_init (mkHistoricalInfo arms))).2.

(** ** Derived notions used in the statements *)

(** The value [ucb_payoff] computes when nothing raises. *)
Definition code_score (number_sampled : nat) (sampled_arm : SampleArm) : R :=
  avg_payoff sampled_arm
  + sqrt (2 * ln (INR (total sampled_arm)) / INR number_sampled).

(** Every arm has been pulled at least once. *)
Definition all_sampled (arms : py_dict SampleArm) : Prop :=
  Forall (fun item => (1 <= total item.2)%nat) arms.

(** [number_sampled] of line 76. *)
Definition number_sampled_of (arms : py_dict SampleArm) : nat :=
  sum (map total (itervalues arms)).

(** The set [get_unsampled_arm_names] returns on a non-empty dict. *)
Definition unsampled_names (arms : py_dict SampleArm) : gset string :=
  list_to_set (map fst (List.filter is_unsampled arms)).

(** [ucb_payoff_arm_name_list] when nothing raises. *)
Definition scored (n : nat) (arms : py_dict SampleArm) : list (R * string) :=
  map (fun item => (code_score n item.2, item.1)) arms.

(** [s] is the largest score computed over [arms]. *)
Definition best_score (arms : py_dict SampleArm) (s : R) : Prop :=
  (exists name arm,
      (name, arm) ∈ arms /\ code_score (number_sampled_of arms) arm = s) /\
  (forall name arm,
      (name, arm) ∈ arms -> code_score (number_sampled_of arms) arm <= s).

(** The probability an arm receives for the winning set [W]. *)
Definition share (W : gset string) (arm_name : string) : R :=
  if decide (arm_name ∈ W) then 1 / INR (size W) else 0.

(** The mapping [get_equal_arm_allocations] returns for an accepted [W]. *)
Definition equal_allocations (arms : py_dict SampleArm) (W : gset string)
  : gmap string R :=
  list_to_map (map (fun arm_name => (arm_name, share W arm_name)) (iterkeys arms)).

(** [sum(allocation.values())]. *)
Definition allocation_sum (m : gmap string R) : R :=
  foldr Rplus 0 (map snd (map_to_list m)).

(** Three arms pulled four times each. *)
Definition scenario : py_dict SampleArm :=
  [("A", mkSampleArm 3 1 4); ("B", mkSampleArm 2 2 4); ("C", mkSampleArm 1 3 4)].

(** Two arms never pulled and one pulled five times. *)
Definition fresh_arms : py_dict SampleArm :=
  [("A", mkSampleArm 0 0 0); ("B", mkSampleArm 3 2 5); ("C", mkSampleArm 0 0 0)].

(** Two arms with the same counts and a third one. *)
Definition twins : py_dict SampleArm :=
  [("A", mkSampleArm 2 1 3); ("B", mkSampleArm 1 1 2); ("C", mkSampleArm 2 1 3)].

(** The [ValueError] of [allocate_arms], the specification's
    [EmptyHistoryError]. *)
Definition EmptyHistoryError : exception := ValueError "sample_arms are empty!".

(** The score as the specification and the docstring of [allocate_arms]
    give it: [mu_j + sqrt (2 * ln n / total_j)], with
    [mu_j = (win_j - loss_j) / total_j] and [n] the overall count. *)
Definition documented_score (n : nat) (sampled_arm : SampleArm) : R :=
  (win sampled_arm - loss sampled_arm) / INR (total sampled_arm)
  + sqrt (2 * ln (INR n) / INR (total sampled_arm)).

(** One arm pulled once, one arm pulled twice, no payoff on either. *)
Definition lopsided : py_dict SampleArm :=
  [("A", mkSampleArm 0 0 1); ("B", mkSampleArm 0 0 2)].

(** Same names and pull counts position by position, and the same
    [win - loss] for each arm. *)
Definition same_net_payoff (x y : string * SampleArm) : Prop :=
  x.1 = y.1 /\ total x.2 = total y.2 /\
  win x.2 - loss x.2 = win y.2 - loss y.2.


(** * Properties *)

(** ** The error monad and the numeric primitives *)

Lemma for_each_ok {A B : Type} (f : A -> result B) (g : A -> B) (l : list A) :
  Forall (fun x => f x = Ok (g x)) l -> for_each f l = Ok (map g l).
Proof.
  induction 1 as [|x xs Hx _ IH]; simpl; [done|].
  by rewrite Hx, IH.
Qed.

Lemma INR_pos (n : nat) : (1 <= n)%nat -> 0 < INR n.
Proof. intros H. apply lt_0_INR. lia. Qed.

Lemma ln_INR_nonneg (n : nat) : (1 <= n)%nat -> 0 <= ln (INR n).
Proof.
  intros H. rewrite <- ln_1.
  destruct (decide (n = 1%nat)) as [->|Hne]; [simpl; lra|].
  left. apply ln_increasing; [lra|].
  replace 1 with (INR 1) by done. apply lt_INR. lia.
Qed.

Lemma math_log_ok (n : nat) :
  (1 <= n)%nat -> math_log n = Ok (ln (INR n)).
Proof.
  intros Hn. unfold math_log. by destruct (Nat.eqb_spec n 0) as [|_]; [lia|].
Qed.

Lemma float_div_ok (x : R) (n : nat) :
  (1 <= n)%nat -> float_div x n = Ok (x / INR n).
Proof.
  intros Hn. unfold float_div. by destruct (Nat.eqb_spec n 0) as [|_]; [lia|].
Qed.

Lemma math_sqrt_ok (x : R) : 0 <= x -> math_sqrt x = Ok (sqrt x).
Proof.
  intros Hx. unfold math_sqrt. case_decide as Hneg; [lra|done].
Qed.

Lemma radicand_nonneg (n t : nat) :
  (1 <= n)%nat -> (1 <= t)%nat -> 0 <= 2 * ln (INR t) / INR n.
Proof.
  intros Hn Ht.
  apply Rmult_le_pos; [|left; apply Rinv_0_lt_compat, INR_pos; lia].
  apply Rmult_le_pos; [lra|]. by apply ln_INR_nonneg.
Qed.

Lemma ucb_payoff_ok (n : nat) (name : string) (arm : SampleArm) :
  (1 <= n)%nat -> (1 <= total arm)%nat ->
  ucb_payoff n (name, arm) = Ok (code_score n arm, name).
Proof.
  intros Hn Ht. unfold ucb_payoff, code_score.
  rewrite math_log_ok by done. cbn [bind].
  rewrite float_div_ok by done. cbn [bind].
  rewrite math_sqrt_ok by by apply radicand_nonneg.
  done.
Qed.

(** ** Unsampled arms *)

Lemma get_unsampled_arm_names_ok (arms : py_dict SampleArm) :
  arms <> [] -> get_unsampled_arm_names arms = Ok (unsampled_names arms).
Proof. by destruct arms. Qed.

Lemma elem_of_unsampled_names (arms : py_dict SampleArm) (name : string) :
  name ∈ unsampled_names arms <->
  exists arm, (name, arm) ∈ arms /\ total arm = 0%nat.
Proof.
  unfold unsampled_names. rewrite elem_of_list_to_set, list_elem_of_fmap.
  split.
  - intros [[k arm] [-> Hin]]. exists arm.
    apply list_elem_of_In, filter_In in Hin as [Hin Hz].
    split; [by apply list_elem_of_In|]. by apply Nat.eqb_eq in Hz.
  - intros [arm [Hin Hz]]. exists (name, arm). split; [done|].
    apply list_elem_of_In, filter_In. split; [by apply list_elem_of_In|].
    by apply Nat.eqb_eq.
Qed.

Lemma unsampled_names_empty (arms : py_dict SampleArm) :
  unsampled_names arms = ∅ <-> all_sampled arms.
Proof.
  unfold all_sampled. rewrite Forall_forall. split.
  - intros He [name arm] Hin. simpl.
    destruct (total arm) as [|t] eqn:Et; [|lia].
    assert (name ∈ unsampled_names arms) as Hn
      by (apply elem_of_unsampled_names; eauto).
    rewrite He in Hn. set_solver.
  - intros Hall. apply set_eq. intros name. split; [|set_solver].
    intros [arm [Hin Hz]]%elem_of_unsampled_names.
    specialize (Hall _ Hin). simpl in Hall. lia.
Qed.

Lemma unsampled_names_subseteq (arms : py_dict SampleArm) :
  unsampled_names arms ⊆ list_to_set (iterkeys arms).
Proof.
  intros name [arm [Hin _]]%elem_of_unsampled_names.
  apply elem_of_list_to_set, list_elem_of_fmap. by exists (name, arm).
Qed.

Lemma number_sampled_pos (arms : py_dict SampleArm) :
  arms <> [] -> all_sampled arms -> (1 <= number_sampled_of arms)%nat.
Proof.
  intros Hne Hall. destruct Hall as [|[name arm] rest Ht _]; [done|].
  unfold number_sampled_of. simpl in *. lia.
Qed.

(** ** [max] over the scored arms *)

Lemma tuple_gt_true (x y : R * string) : tuple_gt x y = true -> y.1 <= x.1.
Proof.
  unfold tuple_gt. case_decide as He; [rewrite He; lra|].
  intros Hgt%bool_decide_eq_true. lra.
Qed.

Lemma tuple_gt_false (x y : R * string) : tuple_gt x y = false -> x.1 <= y.1.
Proof.
  unfold tuple_gt. case_decide as He; [rewrite He; lra|].
  intros Hgt%bool_decide_eq_false. lra.
Qed.

Lemma fold_max_spec (xs : list (R * string)) (x : R * string) :
  let b := fold_left (fun m item => if tuple_gt item m then item else m) xs x in
  b ∈ x :: xs /\ forall y, y ∈ x :: xs -> y.1 <= b.1.
Proof.
  revert x. induction xs as [|z zs IH]; intros x; simpl.
  - split; [by left|]. intros y ->%list_elem_of_singleton. lra.
  - destruct (tuple_gt z x) eqn:Hg.
    + destruct (IH z) as [Hin Hmax]. split; [by right|].
      intros y [->|Hy]%elem_of_cons; [|by apply Hmax].
      apply tuple_gt_true in Hg.
      assert (z.1 <= (fold_left (fun m item => if tuple_gt item m then item else m) zs z).1)
        by (apply Hmax; by left).
      lra.
    + destruct (IH x) as [Hin Hmax]. split.
      { apply elem_of_cons in Hin as [->|Hin]; [by left|by do 2 right]. }
      intros y [->|[->|Hy]%elem_of_cons]%elem_of_cons.
      * apply Hmax. by left.
      * apply tuple_gt_false in Hg.
        assert (x.1 <= (fold_left (fun m item => if tuple_gt item m then item else m) zs x).1)
          by (apply Hmax; by left).
        lra.
      * apply Hmax. by right.
Qed.

Lemma py_max_spec (l : list (R * string)) :
  l <> [] ->
  exists b, py_max l = Ok b /\ b ∈ l /\ forall y, y ∈ l -> y.1 <= b.1.
Proof.
  destruct l as [|x xs]; [done|]. intros _. eexists. split; [done|].
  apply fold_max_spec.
Qed.

(** ** The winning set *)

Lemma for_each_ucb_payoff (n : nat) (arms : py_dict SampleArm) :
  (1 <= n)%nat -> all_sampled arms ->
  for_each (ucb_payoff n) arms = Ok (scored n arms).
Proof.
  intros Hn Hall. apply for_each_ok.
  eapply Forall_impl; [exact Hall|].
  intros [name arm] Ht. by apply ucb_payoff_ok.
Qed.

Lemma elem_of_scored (n : nat) (arms : py_dict SampleArm) (p : R * string) :
  p ∈ scored n arms <->
  exists arm, (p.2, arm) ∈ arms /\ code_score n arm = p.1.
Proof.
  unfold scored. rewrite list_elem_of_fmap. split.
  - intros [[name arm] [-> Hin]]. by exists arm.
  - intros [arm [Hin Hs]]. exists (p.2, arm). split; [|done].
    destruct p as [s name]. simpl in *. by rewrite Hs.
Qed.

Lemma get_winning_arm_names_unfold (arms : py_dict SampleArm) :
  arms <> [] ->
  get_winning_arm_names arms =
    if decide (unsampled_names arms = ∅) then
      let* ucb_payoff_arm_name_list :=
        for_each (ucb_payoff (number_sampled_of arms)) arms in
      let* best := py_max ucb_payoff_arm_name_list in
      let* winning_arm_name_list :=
        unzip_names
          (List.filter (fun p => bool_decide (p.1 = best.1)) ucb_payoff_arm_name_list) in
      Ok (list_to_set winning_arm_name_list)
    else Ok (unsampled_names arms).
Proof. by destruct arms. Qed.

Lemma best_score_unique (arms : py_dict SampleArm) (s1 s2 : R) :
  best_score arms s1 -> best_score arms s2 -> s1 = s2.
Proof.
  intros [(n1 & a1 & Hin1 & <-) Hmax1] [(n2 & a2 & Hin2 & <-) Hmax2].
  apply Rle_antisym; eauto.
Qed.

Lemma winning_unsampled (arms : py_dict SampleArm) :
  arms <> [] -> ~ all_sampled arms ->
  get_winning_arm_names arms = Ok (unsampled_names arms).
Proof.
  intros Hne Hns. rewrite get_winning_arm_names_unfold by done.
  case_decide as He; [|done]. by apply unsampled_names_empty in He.
Qed.

Lemma winning_scored (arms : py_dict SampleArm) :
  arms <> [] -> all_sampled arms ->
  exists best W,
    get_winning_arm_names arms = Ok W /\
    best_score arms best /\
    forall name,
      name ∈ W <->
      exists arm,
        (name, arm) ∈ arms /\ code_score (number_sampled_of arms) arm = best.
Proof.
  intros Hne Hall. rewrite get_winning_arm_names_unfold by done.
  rewrite decide_True by by apply unsampled_names_empty.
  set (n := number_sampled_of arms).
  rewrite for_each_ucb_payoff by (by try apply number_sampled_pos).
  simpl bind.
  destruct (py_max_spec (scored n arms)) as (b & -> & Hb & Hmax).
  { unfold scored. by destruct arms. }
  simpl bind.
  set (winners := List.filter _ _).
  assert (forall p, p ∈ winners <-> p ∈ scored n arms /\ p.1 = b.1) as Hw.
  { intros p. unfold winners.
    rewrite list_elem_of_In, filter_In, <- list_elem_of_In, bool_decide_eq_true.
    done. }
  assert (unzip_names winners = Ok (map snd winners)) as ->.
  { destruct winners eqn:E; [|done].
    exfalso. eapply not_elem_of_nil. apply (Hw b). done. }
  simpl bind. exists b.1, (list_to_set (map snd winners)).
  split; [done|]. split.
  - split.
    + apply elem_of_scored in Hb as [arm [Hin Hs]]. by exists b.2, arm.
    + intros name arm Hin.
      apply (Hmax (code_score n arm, name)), elem_of_scored. by exists arm.
  - intros name. rewrite elem_of_list_to_set, list_elem_of_fmap. split.
    + intros [p [-> [[arm [Hin Hs]]%elem_of_scored Hp]%Hw]].
      exists arm. split; [done|]. congruence.
    + intros [arm [Hin Hs]]. exists (code_score n arm, name).
      split; [done|]. apply Hw. split; [|done].
      apply elem_of_scored. by exists arm.
Qed.

Lemma winning_nonempty_subseteq (arms : py_dict SampleArm) :
  arms <> [] ->
  exists W,
    get_winning_arm_names arms = Ok W /\
    W <> ∅ /\ W ⊆ list_to_set (iterkeys arms).
Proof.
  intros Hne. destruct (decide (unsampled_names arms = ∅)) as [He|Hu].
  - apply unsampled_names_empty in He.
    destruct (winning_scored arms Hne He)
      as (best & W & HW & [(name & arm & Hin & Hs) _] & Hmem).
    exists W. split; [done|]. split.
    + intros ->. apply (not_elem_of_empty (C:=gset string) name).
      apply Hmem. by exists arm.
    + intros k [a [Hk _]]%Hmem.
      apply elem_of_list_to_set, list_elem_of_fmap. by exists (k, a).
  - exists (unsampled_names arms). split.
    + apply winning_unsampled; [done|]. by rewrite <- unsampled_names_empty.
    + split; [done|]. apply unsampled_names_subseteq.
Qed.

(** ** The allocation *)

Lemma lookup_keyed_map (f : string -> R) (keys : list string) (k : string) :
  (list_to_map (map (fun name => (name, f name)) keys) : gmap string R) !! k =
    if decide (k ∈ keys) then Some (f k) else None.
Proof.
  induction keys as [|x xs IH].
  - destruct (decide (k ∈ [])) as [Hin|_]; [by apply not_elem_of_nil in Hin|].
    apply lookup_empty.
  - change (<[x := f x]> (list_to_map (map (fun name => (name, f name)) xs)
                           : gmap string R) !! k
            = if decide (k ∈ x :: xs) then Some (f k) else None).
    destruct (decide (x = k)) as [->|Hne].
    + rewrite lookup_insert_eq.
      destruct (decide (k ∈ k :: xs)) as [_|Hnin]; [done|].
      exfalso. apply Hnin. by left.
    + rewrite lookup_insert_ne, IH by done.
      destruct (decide (k ∈ xs)) as [Hin|Hnin];
        destruct (decide (k ∈ x :: xs)) as [Hin'|Hnin']; try done.
      * exfalso. apply Hnin'. by right.
      * exfalso. apply elem_of_cons in Hin' as [->|?]; done.
Qed.

Lemma lookup_equal_allocations (arms : py_dict SampleArm) (W : gset string)
    (k : string) :
  equal_allocations arms W !! k =
    if decide (k ∈ iterkeys arms) then Some (share W k) else None.
Proof. apply lookup_keyed_map. Qed.

Lemma get_equal_arm_allocations_ok (arms : py_dict SampleArm) (W : gset string) :
  W <> ∅ -> W ⊆ list_to_set (iterkeys arms) ->
  get_equal_arm_allocations arms W = Ok (equal_allocations arms W).
Proof.
  intros Hne Hsub. unfold get_equal_arm_allocations.
  by rewrite decide_False, decide_True by done.
Qed.

Lemma allocation_of_unfold (arms : py_dict SampleArm) :
  arms <> [] ->
  allocation_of arms =
    let* winners := get_winning_arm_names arms in
    get_equal_arm_allocations arms winners.
Proof. by destruct arms. Qed.

Lemma allocation_of_ok (arms : py_dict SampleArm) :
  arms <> [] ->
  exists W,
    get_winning_arm_names arms = Ok W /\
    W <> ∅ /\ W ⊆ list_to_set (iterkeys arms) /\
    allocation_of arms = Ok (equal_allocations arms W).
Proof.
  intros Hne. destruct (winning_nonempty_subseteq arms Hne) as (W & HW & Hn & Hs).
  exists W. repeat split; try done.
  rewrite allocation_of_unfold, HW by done. simpl bind.
  by apply get_equal_arm_allocations_ok.
Qed.

Lemma allocate_arms_result (self : UCB1) :
  (allocate_arms self).2 = allocation_of (arms_sampled (_historical_info self)).
Proof. destruct self as [[arms] tag]. by destruct arms. Qed.

Lemma allocate_arms_self (self : UCB1) : (allocate_arms self).1 = self.
Proof. unfold allocate_arms. by destruct (arms_sampled _). Qed.

(** ** Dict invariant: one value per key *)

Lemma dict_lookup_unique {V : Type} (d : py_dict V) (k : string) (v1 v2 : V) :
  NoDup (iterkeys d) -> (k, v1) ∈ d -> (k, v2) ∈ d -> v1 = v2.
Proof.
  intros Hnd H1 H2.
  apply (elem_of_list_to_map (M:=gmap string)) in H1, H2; try done.
  congruence.
Qed.

Lemma NoDup_keys_filter {V : Type} (f : string * V -> bool) (d : py_dict V) :
  NoDup (iterkeys d) -> NoDup (iterkeys (List.filter f d)).
Proof.
  unfold iterkeys. induction d as [|[k v] rest IH]; simpl; [done|].
  intros [Hnin Hnd]%NoDup_cons. destruct (f (k, v)); simpl; [|by apply IH].
  apply NoDup_cons. split; [|by apply IH].
  intros [[k' v'] [Hk Hin]]%list_elem_of_fmap. simpl in Hk. subst k'.
  apply Hnin, list_elem_of_fmap. exists (k, v'). split; [done|].
  apply list_elem_of_In. apply list_elem_of_In, filter_In in Hin. tauto.
Qed.

Lemma size_unsampled_names (arms : py_dict SampleArm) :
  NoDup (iterkeys arms) ->
  size (unsampled_names arms) = length (List.filter is_unsampled arms).
Proof.
  intros Hnd. unfold unsampled_names.
  rewrite size_list_to_set by by apply NoDup_keys_filter.
  apply length_map.
Qed.

(** Whether an arm wins depends on its [(win, loss, total)] triple only. *)
Lemma winning_by_triple (arms : py_dict SampleArm) (W : gset string) :
  NoDup (iterkeys arms) ->
  get_winning_arm_names arms = Ok W ->
  exists P : SampleArm -> Prop,
    forall name arm, (name, arm) ∈ arms -> name ∈ W <-> P arm.
Proof.
  intros Hnd HW. destruct (decide (arms = [])) as [->|Hne]; [done|].
  destruct (decide (unsampled_names arms = ∅)) as [He|Hu].
  - apply unsampled_names_empty in He.
    destruct (winning_scored arms Hne He) as (best & W' & HW' & _ & Hmem).
    assert (W' = W) as -> by congruence.
    exists (fun arm => code_score (number_sampled_of arms) arm = best).
    intros name arm Hin. rewrite Hmem. split.
    + intros [arm' [Hin' Hs]]. by rewrite (dict_lookup_unique arms name arm arm').
    + intros Hs. by exists arm.
  - rewrite winning_unsampled in HW; [|done|by rewrite <- unsampled_names_empty].
    assert (W = unsampled_names arms) as -> by congruence.
    exists (fun arm => total arm = 0%nat).
    intros name arm Hin. rewrite elem_of_unsampled_names. split.
    + intros [arm' [Hin' Hs]]. by rewrite (dict_lookup_unique arms name arm arm').
    + intros Hs. by exists arm.
Qed.

(** ** Iteration order *)

Lemma number_sampled_of_perm (arms1 arms2 : py_dict SampleArm) :
  arms1 ≡ₚ arms2 -> number_sampled_of arms1 = number_sampled_of arms2.
Proof.
  unfold number_sampled_of, itervalues, sum.
  induction 1 as [|x l1 l2 _ IH|x y l|l1 l2 l3 _ IH1 _ IH2]; simpl; lia.
Qed.

Lemma unsampled_names_perm (arms1 arms2 : py_dict SampleArm) :
  arms1 ≡ₚ arms2 -> unsampled_names arms1 = unsampled_names arms2.
Proof.
  intros Hp. apply set_eq. intros name.
  rewrite !elem_of_unsampled_names.
  by setoid_rewrite Hp.
Qed.

Lemma best_score_perm (arms1 arms2 : py_dict SampleArm) (s : R) :
  arms1 ≡ₚ arms2 -> best_score arms1 s -> best_score arms2 s.
Proof.
  intros Hp [(name & arm & Hin & Hs) Hmax]. unfold best_score.
  rewrite <- (number_sampled_of_perm _ _ Hp). split.
  - exists name, arm. by rewrite <- Hp.
  - intros name' arm' Hin'. apply (Hmax name'). by rewrite Hp.
Qed.

Lemma get_winning_arm_names_perm (arms1 arms2 : py_dict SampleArm) :
  arms1 ≡ₚ arms2 -> get_winning_arm_names arms1 = get_winning_arm_names arms2.
Proof.
  intros Hp. destruct (decide (arms1 = [])) as [->|Hne1].
  { by apply Permutation_nil in Hp as ->. }
  assert (arms2 <> []) as Hne2.
  { intros ->. by apply Permutation_nil_r in Hp. }
  destruct (decide (unsampled_names arms1 = ∅)) as [He|Hu].
  - assert (all_sampled arms1) as Hall1 by by apply unsampled_names_empty.
    assert (all_sampled arms2) as Hall2.
    { apply unsampled_names_empty. by rewrite <- (unsampled_names_perm _ _ Hp). }
    destruct (winning_scored arms1 Hne1 Hall1) as (b1 & W1 & -> & Hb1 & Hm1).
    destruct (winning_scored arms2 Hne2 Hall2) as (b2 & W2 & -> & Hb2 & Hm2).
    f_equal. apply set_eq. intros name. rewrite Hm1, Hm2.
    rewrite (best_score_unique arms2 b1 b2 (best_score_perm _ _ _ Hp Hb1) Hb2).
    rewrite (number_sampled_of_perm _ _ Hp). by setoid_rewrite Hp.
  - rewrite !winning_unsampled; try done.
    + by rewrite (unsampled_names_perm _ _ Hp).
    + by rewrite <- unsampled_names_empty, <- (unsampled_names_perm _ _ Hp).
    + by rewrite <- unsampled_names_empty.
Qed.

Lemma equal_allocations_perm (arms1 arms2 : py_dict SampleArm) (W : gset string) :
  arms1 ≡ₚ arms2 -> equal_allocations arms1 W = equal_allocations arms2 W.
Proof.
  intros Hp. apply map_eq. intros k. rewrite !lookup_equal_allocations.
  assert (k ∈ iterkeys arms1 <-> k ∈ iterkeys arms2) as Hk.
  { unfold iterkeys. by rewrite Hp. }
  destruct (decide (k ∈ iterkeys arms1)), (decide (k ∈ iterkeys arms2)); tauto.
Qed.

Lemma allocation_of_perm (arms1 arms2 : py_dict SampleArm) :
  arms1 ≡ₚ arms2 -> allocation_of arms1 = allocation_of arms2.
Proof.
  intros Hp. destruct (decide (arms1 = [])) as [->|Hne1].
  { by apply Permutation_nil in Hp as ->. }
  assert (arms2 <> []) as Hne2.
  { intros ->. by apply Permutation_nil_r in Hp. }
  destruct (allocation_of_ok arms1 Hne1) as (W1 & HW1 & _ & _ & ->).
  destruct (allocation_of_ok arms2 Hne2) as (W2 & HW2 & _ & _ & ->).
  rewrite (get_winning_arm_names_perm _ _ Hp) in HW1.
  assert (W1 = W2) as -> by congruence.
  by rewrite (equal_allocations_perm _ _ _ Hp).
Qed.

(** ** The allocation sums to one *)

Lemma Rsum_perm (l1 l2 : list R) :
  l1 ≡ₚ l2 -> foldr Rplus 0 l1 = foldr Rplus 0 l2.
Proof.
  induction 1 as [|x l1 l2 _ IH|x y l|l1 l2 l3 _ IH1 _ IH2]; simpl;
    [done|by rewrite IH|lra|congruence].
Qed.

Lemma Rsum_shares (W : gset string) (keys : list string) :
  foldr Rplus 0 (map (share W) keys) =
    INR (length (filter (fun k => k ∈ W) keys)) * (1 / INR (size W)).
Proof.
  induction keys as [|k ks IH]; [simpl; lra|].
  rewrite filter_cons. cbn [map foldr]. rewrite IH. unfold share.
  destruct (decide (k ∈ W)); [|lra].
  cbn [length]. rewrite S_INR. lra.
Qed.

Lemma length_winning_keys (W : gset string) (keys : list string) :
  NoDup keys -> W ⊆ list_to_set keys ->
  length (filter (fun k => k ∈ W) keys) = size W.
Proof.
  intros Hnd Hsub.
  rewrite <- (size_list_to_set (C:=gset string)) by by apply NoDup_filter.
  f_equal. apply set_eq. intros k.
  rewrite elem_of_list_to_set, list_elem_of_filter. split; [tauto|].
  intros Hk. split; [done|].
  by apply (elem_of_list_to_set (C:=gset string)), Hsub.
Qed.

Lemma map_to_list_equal_allocations (arms : py_dict SampleArm) (W : gset string) :
  NoDup (iterkeys arms) ->
  map_to_list (equal_allocations arms W)
    ≡ₚ map (fun arm_name => (arm_name, share W arm_name)) (iterkeys arms).
Proof.
  intros Hnd. apply map_to_list_to_map.
  by rewrite <- list_fmap_compose, list_fmap_id.
Qed.

Lemma allocation_sum_equal_allocations (arms : py_dict SampleArm) (W : gset string) :
  NoDup (iterkeys arms) -> W <> ∅ -> W ⊆ list_to_set (iterkeys arms) ->
  allocation_sum (equal_allocations arms W) = 1.
Proof.
  intros Hnd Hne Hsub. unfold allocation_sum.
  rewrite (Rsum_perm _ (map (share W) (iterkeys arms))).
  - rewrite Rsum_shares, length_winning_keys by done.
    assert (0 < INR (size W)).
    { apply INR_pos. destruct (size W) eqn:Es; [|lia].
      by apply size_empty_inv, leibniz_equiv in Es. }
    field. lra.
  - rewrite (map_to_list_equal_allocations arms W Hnd).
    by rewrite <- list_fmap_compose.
Qed.

(** * The claims *)

(** ** Non-empty, consistent winning set *)

(** C9: for a non-empty [arms_sampled], [get_winning_arm_names] returns a
    non-empty set of names that is a subset of the keys; the allocation
    helper accepts it, and some arm receives a positive probability. *)
Theorem get_winning_arm_names_nonempty_subset (arms : py_dict SampleArm) :
  arms <> [] ->
  exists W,
    get_winning_arm_names arms = Ok W /\
    W <> ∅ /\
    W ⊆ list_to_set (iterkeys arms) /\
    exists m,
      get_equal_arm_allocations arms W = Ok m /\
      exists name p, m !! name = Some p /\ 0 < p.
Proof.
  intros Hne. destruct (winning_nonempty_subseteq arms Hne) as (W & HW & Hn & Hs).
  exists W. do 3 (split; [done|]).
  exists (equal_allocations arms W).
  split; [by apply get_equal_arm_allocations_ok|].
  destruct (set_choose_L W Hn) as [name Hname].
  exists name, (1 / INR (size W)). split.
  - rewrite lookup_equal_allocations, decide_True.
    + unfold share. by rewrite decide_True.
    + by apply (elem_of_list_to_set (C:=gset string)), Hs.
  - apply Rdiv_lt_0_compat; [lra|]. apply INR_pos.
    destruct (size W) eqn:Es; [|lia].
    by apply size_empty_inv, leibniz_equiv in Es.
Qed.

Lemma get_winning_arm_names_nonempty_subset_scenario :
  exists W,
    get_winning_arm_names scenario = Ok W /\
    W <> ∅ /\
    W ⊆ list_to_set (iterkeys scenario) /\
    exists m,
      get_equal_arm_allocations scenario W = Ok m /\
      exists name p, m !! name = Some p /\ 0 < p.
Proof. apply (get_winning_arm_names_nonempty_subset scenario). discriminate. Defined.

(** ** Failure exactly on the empty history *)

(** C3: [allocate_arms] raises exactly when the held history has no arms,
    the exception is then [EmptyHistoryError]; on every other history it
    returns an allocation; the policy object is the same afterwards. *)
Theorem allocate_arms_raises_iff_empty (self : UCB1) :
  (allocate_arms self).1 = self /\
  ((exists e, (allocate_arms self).2 = Raise e) <->
     arms_sampled (_historical_info self) = []) /\
  (forall e, (allocate_arms self).2 = Raise e -> e = EmptyHistoryError) /\
  ((exists m, (allocate_arms self).2 = Ok m) <->
     arms_sampled (_historical_info self) <> []).
Proof.
  split; [apply allocate_arms_self|].
  rewrite allocate_arms_result.
  destruct (decide (arms_sampled (_historical_info self) = [])) as [->|Hne].
  - split; [|split].
    + split; [done|]. intros _. by eexists.
    + intros e He. cbv in He. by injection He as <-.
    + split; [by intros [m Hm]|done].
  - destruct (allocation_of_ok _ Hne) as (W & _ & _ & _ & ->).
    split; [|split].
    + split; [by intros [e He]|done].
    + by intros e He.
    + split; [done|]. intros _. by eexists.
Qed.

(** ** A single arm *)

(** C8: a history with exactly one arm, pulled at least once, allocates
    probability 1 to that arm. *)
Theorem single_arm_allocation (name : string) (arm : SampleArm) :
  (1 <= total arm)%nat ->
  allocation_of [(name, arm)] = Ok {[ name := 1 ]}.
Proof.
  intros Ht.
  destruct (allocation_of_ok [(name, arm)]) as (W & _ & Hn & Hs & ->); [done|].
  f_equal. assert (W = {[ name ]}) as ->.
  { apply set_eq. intros k. split.
    - intros Hk%Hs. apply elem_of_list_to_set, list_elem_of_singleton in Hk.
      by apply elem_of_singleton.
    - intros ->%elem_of_singleton.
      destruct (set_choose_L W Hn) as [k Hk].
      pose proof (Hs k Hk) as Hk'.
      apply elem_of_list_to_set, list_elem_of_singleton in Hk'.
      simpl in Hk'. by subst k. }
  apply map_eq. intros k. rewrite lookup_equal_allocations.
  unfold iterkeys, share. simpl map. rewrite size_singleton.
  destruct (decide (k = name)) as [->|Hk].
  - rewrite lookup_singleton_eq, decide_True by by left.
    rewrite decide_True by by apply elem_of_singleton.
    f_equal. simpl. lra.
  - rewrite lookup_singleton_ne by done.
    by rewrite decide_False by by intros ->%list_elem_of_singleton.
Qed.

Lemma single_arm_allocation_once :
  allocation_of [("A", mkSampleArm 1 0 1)] = Ok {[ "A" := 1 ]}.
Proof. apply (single_arm_allocation "A" (mkSampleArm 1 0 1)). simpl. lia. Defined.

(** ** Scoring cannot fail *)

(** C6: on a non-empty history the allocation is computed without any
    exception.  The scoring loop is entered only when the unsampled set is
    empty, and then every arm has [total >= 1] and the overall count is at
    least 1, so every logarithm and every division of the loop succeeds;
    otherwise the unsampled set is returned before any score is computed. *)
Theorem scoring_never_raises (arms : py_dict SampleArm) :
  arms <> [] ->
  (exists m, allocation_of arms = Ok m) /\
  get_unsampled_arm_names arms = Ok (unsampled_names arms) /\
  (unsampled_names arms <> ∅ ->
     get_winning_arm_names arms = Ok (unsampled_names arms)) /\
  (unsampled_names arms = ∅ ->
     (1 <= number_sampled_of arms)%nat /\
     Forall (fun item =>
               (1 <= total item.2)%nat /\
               exists l q s,
                 math_log (total item.2) = Ok l /\
                 float_div (2 * l) (number_sampled_of arms) = Ok q /\
                 math_sqrt q = Ok s /\
                 ucb_payoff (number_sampled_of arms) item
                   = Ok (avg_payoff item.2 + s, item.1))
            arms).
Proof.
  intros Hne. split; [|split; [|split]].
  - destruct (allocation_of_ok arms Hne) as (W & _ & _ & _ & ->). by eexists.
  - by apply get_unsampled_arm_names_ok.
  - intros Hu. apply winning_unsampled; [done|].
    by rewrite <- unsampled_names_empty.
  - intros Hall%unsampled_names_empty.
    pose proof (number_sampled_pos arms Hne Hall) as Hn.
    split; [done|].
    eapply Forall_impl; [exact Hall|].
    intros [name arm] Ht. cbn [fst snd] in *. split; [done|].
    exists (ln (INR (total arm))),
      (2 * ln (INR (total arm)) / INR (number_sampled_of arms)),
      (sqrt (2 * ln (INR (total arm)) / INR (number_sampled_of arms))).
    split; [by apply math_log_ok|].
    split; [by apply float_div_ok|].
    split; [by apply math_sqrt_ok, radicand_nonneg|].
    by apply ucb_payoff_ok.
Qed.

Lemma scoring_never_raises_scenario :
  (exists m, allocation_of scenario = Ok m) /\
  get_unsampled_arm_names scenario = Ok (unsampled_names scenario) /\
  (unsampled_names scenario <> ∅ ->
     get_winning_arm_names scenario = Ok (unsampled_names scenario)) /\
  (unsampled_names scenario = ∅ ->
     (1 <= number_sampled_of scenario)%nat /\
     Forall (fun item =>
               (1 <= total item.2)%nat /\
               exists l q s,
                 math_log (total item.2) = Ok l /\
                 float_div (2 * l) (number_sampled_of scenario) = Ok q /\
                 math_sqrt q = Ok s /\
                 ucb_payoff (number_sampled_of scenario) item
                   = Ok (avg_payoff item.2 + s, item.1))
            scenario).
Proof. apply (scoring_never_raises scenario). discriminate. Defined.

(** ** Winner selection *)

(** C4: when every arm has [total >= 1], the winning set is exactly the set
    of arm names whose computed score equals the largest computed score;
    every tied arm is in it, and the set is the same for every iteration
    order of the mapping. *)
Theorem winning_set_is_argmax (arms : py_dict SampleArm) :
  arms <> [] -> all_sampled arms ->
  exists scores W,
    for_each (ucb_payoff (number_sampled_of arms)) arms = Ok scores /\
    get_winning_arm_names arms = Ok W /\
    (forall name,
        name ∈ W <->
        exists s,
          (s, name) ∈ scores /\
          forall s' name', (s', name') ∈ scores -> s' <= s) /\
    forall arms', arms' ≡ₚ arms -> get_winning_arm_names arms' = Ok W.
Proof.
  intros Hne Hall. set (n := number_sampled_of arms).
  destruct (winning_scored arms Hne Hall)
    as (best & W & HW & [(bn & ba & Hbin & Hbs) Hmax] & Hmem).
  fold n in Hbs, Hmax, Hmem.
  exists (scored n arms), W. split; [|split; [done|split]].
  - apply for_each_ucb_payoff; [|done]. by apply number_sampled_pos.
  - intros name. rewrite Hmem. split.
    + intros (arm & Hin & Hs). exists best. split.
      * apply elem_of_scored. by exists arm.
      * intros s' name' (arm' & Hin' & Hs')%elem_of_scored.
        simpl in Hin', Hs'. rewrite <- Hs'. by apply (Hmax name').
    + intros (s & (arm & Hin & Hs)%elem_of_scored & Htop).
      simpl in Hin, Hs. exists arm. split; [done|].
      rewrite Hs. apply Rle_antisym.
      * rewrite <- Hs. by apply (Hmax name).
      * apply (Htop best bn), elem_of_scored. by exists ba.
  - intros arms' Hp. by rewrite (get_winning_arm_names_perm _ _ Hp).
Qed.

Lemma winning_set_is_argmax_scenario :
  exists scores W,
    for_each (ucb_payoff (number_sampled_of scenario)) scenario = Ok scores /\
    get_winning_arm_names scenario = Ok W /\
    (forall name,
        name ∈ W <->
        exists s,
          (s, name) ∈ scores /\
          forall s' name', (s', name') ∈ scores -> s' <= s) /\
    forall arms', arms' ≡ₚ scenario -> get_winning_arm_names arms' = Ok W.
Proof.
  apply (winning_set_is_argmax scenario); [discriminate|].
  unfold all_sampled, scenario. repeat constructor; simpl; lia.
Defined.

(** ** Symmetry *)

(** C7: two arms of a history with the same [(win, loss, total)] triple
    receive the same allocation probability. *)
Theorem identical_arms_same_allocation (arms : py_dict SampleArm)
    (a b : string) (arm_a arm_b : SampleArm) :
  NoDup (iterkeys arms) ->
  (a, arm_a) ∈ arms -> (b, arm_b) ∈ arms ->
  win arm_a = win arm_b -> loss arm_a = loss arm_b -> total arm_a = total arm_b ->
  exists m p,
    allocation_of arms = Ok m /\ m !! a = Some p /\ m !! b = Some p.
Proof.
  intros Hnd Ha Hb Hw Hl Ht.
  assert (arm_a = arm_b) as <-.
  { destruct arm_a, arm_b. simpl in *. by subst. }
  assert (arms <> []) as Hne by (intros ->; by apply not_elem_of_nil in Ha).
  destruct (allocation_of_ok arms Hne) as (W & HW & _ & _ & ->).
  destruct (winning_by_triple arms W Hnd HW) as [P HP].
  exists (equal_allocations arms W), (share W a).
  split; [done|]. rewrite !lookup_equal_allocations.
  rewrite !decide_True.
  - split; [done|]. f_equal. unfold share.
    pose proof (HP a arm_a Ha). pose proof (HP b arm_a Hb).
    destruct (decide (a ∈ W)), (decide (b ∈ W)); tauto.
  - apply list_elem_of_fmap. by exists (b, arm_a).
  - apply list_elem_of_fmap. by exists (a, arm_a).
Qed.

Lemma identical_arms_same_allocation_twins :
  exists m p,
    allocation_of twins = Ok m /\ m !! "A" = Some p /\ m !! "C" = Some p.
Proof.
  apply (identical_arms_same_allocation twins "A" "C"
           (mkSampleArm 2 1 3) (mkSampleArm 2 1 3)).
  - by apply (bool_decide_unpack _).
  - left.
  - do 2 right. left.
  - reflexivity.
  - reflexivity.
  - reflexivity.
Defined.

(** ** Unsampled arms come first *)

(** C2: when some arm has [total = 0], the allocation gives [1 / k] to each
    of the [k] arms with [total = 0] and [0] to every other arm, and has no
    further keys. *)
Theorem unsampled_arms_split_allocation (arms : py_dict SampleArm) :
  NoDup (iterkeys arms) ->
  (exists name arm, (name, arm) ∈ arms /\ total arm = 0%nat) ->
  exists m,
    allocation_of arms = Ok m /\
    (forall name arm,
        (name, arm) ∈ arms ->
        m !! name =
          Some (if Nat.eqb (total arm) 0
                then 1 / INR (length (List.filter is_unsampled arms))
                else 0)) /\
    (forall name, name ∉ iterkeys arms -> m !! name = None).
Proof.
  intros Hnd (uname & uarm & Huin & Hut).
  assert (arms <> []) as Hne by (intros ->; by apply not_elem_of_nil in Huin).
  assert (unsampled_names arms <> ∅) as Hu.
  { intros He. apply (not_elem_of_empty (C:=gset string) uname).
    rewrite <- He. apply elem_of_unsampled_names. by exists uarm. }
  destruct (allocation_of_ok arms Hne) as (W & HW & _ & _ & ->).
  rewrite winning_unsampled in HW; [|done|by rewrite <- unsampled_names_empty].
  assert (W = unsampled_names arms) as -> by congruence.
  exists (equal_allocations arms (unsampled_names arms)).
  split; [done|]. split.
  - intros name arm Hin. rewrite lookup_equal_allocations, decide_True.
    2:{ apply list_elem_of_fmap. by exists (name, arm). }
    f_equal. unfold share. rewrite size_unsampled_names by done.
    destruct (Nat.eqb_spec (total arm) 0) as [Hz|Hnz].
    + rewrite decide_True; [done|]. apply elem_of_unsampled_names. by exists arm.
    + rewrite decide_False; [done|].
      intros (arm' & Hin' & Hz)%elem_of_unsampled_names.
      by rewrite (dict_lookup_unique arms name arm arm') in Hnz.
  - intros name Hnin. by rewrite lookup_equal_allocations, decide_False.
Qed.

Lemma unsampled_arms_split_allocation_fresh_arms :
  exists m,
    allocation_of fresh_arms = Ok m /\
    (forall name arm,
        (name, arm) ∈ fresh_arms ->
        m !! name =
          Some (if Nat.eqb (total arm) 0
                then 1 / INR (length (List.filter is_unsampled fresh_arms))
                else 0)) /\
    (forall name, name ∉ iterkeys fresh_arms -> m !! name = None).
Proof.
  apply (unsampled_arms_split_allocation fresh_arms).
  - by apply (bool_decide_unpack _).
  - exists "A", (mkSampleArm 0 0 0). split; [left|reflexivity].
Defined.

(** ** Normalisation *)

(** C5: on a non-empty history the returned allocation has every arm name
    as a key exactly once and no other key, gives [1 / |W|] to each arm of
    the winning set [W] and [0] to every other arm, and its values sum
    to 1. *)
Theorem allocation_is_normalized (arms : py_dict SampleArm) :
  arms <> [] -> NoDup (iterkeys arms) ->
  exists W m,
    get_winning_arm_names arms = Ok W /\
    allocation_of arms = Ok m /\
    (map_to_list m).*1 ≡ₚ iterkeys arms /\
    (forall name,
        name ∈ iterkeys arms ->
        m !! name = Some (if decide (name ∈ W) then 1 / INR (size W) else 0)) /\
    allocation_sum m = 1.
Proof.
  intros Hne Hnd.
  destruct (allocation_of_ok arms Hne) as (W & HW & Hn & Hs & ->).
  exists W, (equal_allocations arms W). do 2 (split; [done|]).
  split; [|split].
  - rewrite (map_to_list_equal_allocations arms W Hnd).
    by rewrite <- list_fmap_compose, list_fmap_id.
  - intros name Hin. by rewrite lookup_equal_allocations, decide_True.
  - by apply allocation_sum_equal_allocations.
Qed.

Lemma allocation_is_normalized_scenario :
  exists W m,
    get_winning_arm_names scenario = Ok W /\
    allocation_of scenario = Ok m /\
    (map_to_list m).*1 ≡ₚ iterkeys scenario /\
    (forall name,
        name ∈ iterkeys scenario ->
        m !! name = Some (if decide (name ∈ W) then 1 / INR (size W) else 0)) /\
    allocation_sum m = 1.
Proof.
  apply (allocation_is_normalized scenario); [discriminate|].
  by apply (bool_decide_unpack _).
Defined.

(** ** Determinism *)

(** C10: two policy objects holding the same arm-name to
    [(win, loss, total)] mapping, whatever the iteration order of each,
    return the same allocation (or the same exception): the result is a
    function of the mapping alone. *)
Theorem allocate_arms_deterministic (self1 self2 : UCB1) :
  NoDup (iterkeys (arms_sampled (_historical_info self1))) ->
  NoDup (iterkeys (arms_sampled (_historical_info self2))) ->
  (list_to_map (arms_sampled (_historical_info self1)) : gmap string SampleArm)
    = list_to_map (arms_sampled (_historical_info self2)) ->
  (allocate_arms self1).2 = (allocate_arms self2).2.
Proof.
  intros Hnd1 Hnd2 Heq. rewrite !allocate_arms_result.
  apply allocation_of_perm. by apply (list_to_map_inj (M:=gmap string)).
Qed.

Lemma allocate_arms_deterministic_scenario :
  (allocate_arms (UCB1_init (mkHistoricalInfo scenario))).2
    = (allocate_arms (mkUCB1 (mkHistoricalInfo (reverse scenario)) "UCB1")).2.
Proof.
  apply (allocate_arms_deterministic
           (UCB1_init (mkHistoricalInfo scenario))
           (mkUCB1 (mkHistoricalInfo (reverse scenario)) "UCB1")).
  - by apply (bool_decide_unpack _).
  - by apply (bool_decide_unpack _).
  - reflexivity.
Defined.

(** ** The score formula *)

Lemma code_score_lopsided_A : code_score 3 (mkSampleArm 0 0 1) = 0.
Proof.
  unfold code_score, avg_payoff. cbn [total win loss Nat.ltb Nat.leb].
  replace (INR 1) with 1 by done. rewrite ln_1.
  replace (2 * 0 / INR 3) with 0 by (unfold Rdiv; ring).
  rewrite sqrt_0. lra.
Qed.

Lemma code_score_lopsided_B : 0 < code_score 3 (mkSampleArm 0 0 2).
Proof.
  unfold code_score, avg_payoff. cbn [total win loss Nat.ltb Nat.leb].
  replace ((0 - 0) / INR 2) with 0 by (unfold Rdiv; ring).
  rewrite Rplus_0_l. apply sqrt_lt_R0.
  replace (INR 2) with 2 by (simpl; lra).
  replace (INR 3) with 3 by (simpl; lra).
  pose proof ln_lt_2. lra.
Qed.

(** C1: the score the code computes is not the documented one.  On
    [lopsided] every arm has [total >= 1] and [n = 3]; the code scores arm A
    as [0], the documented formula gives [sqrt (2 * ln 3) > 0]; the code
    lets B win alone, while A has the larger documented score. *)
Theorem ucb_payoff_is_not_documented_score :
  all_sampled lopsided /\
  number_sampled_of lopsided = 3%nat /\
  ucb_payoff 3 ("A", mkSampleArm 0 0 1) = Ok (0, "A") /\
  documented_score 3 (mkSampleArm 0 0 1) = sqrt (2 * ln 3) /\
  0 < sqrt (2 * ln 3) /\
  get_winning_arm_names lopsided = Ok {[ "B" ]} /\
  documented_score 3 (mkSampleArm 0 0 2) < documented_score 3 (mkSampleArm 0 0 1).
Proof.
  assert (all_sampled lopsided) as Hall.
  { unfold all_sampled, lopsided. repeat constructor; simpl; lia. }
  assert (0 < ln 3) as Hln3.
  { rewrite <- ln_1. apply ln_increasing; lra. }
  assert (INR 3 = 3) as H3 by (simpl; lra).
  split; [done|]. split; [done|]. split; [|split; [|split; [|split]]].
  - rewrite ucb_payoff_ok by (simpl; lia). by rewrite code_score_lopsided_A.
  - unfold documented_score. cbn [total win loss]. rewrite H3.
    replace (INR 1) with 1 by done.
    replace (2 * ln 3 / 1) with (2 * ln 3) by lra. lra.
  - apply sqrt_lt_R0. lra.
  - destruct (winning_scored lopsided) as (best & W & -> & [Hex Hmax] & Hmem);
      [done|done|].
    change (number_sampled_of lopsided) with 3%nat in *.
    pose proof code_score_lopsided_A as HA.
    pose proof code_score_lopsided_B as HB.
    assert (best = code_score 3 (mkSampleArm 0 0 2)) as ->.
    { destruct Hex as (name & arm & Hin & <-).
      apply elem_of_cons in Hin as [Hin|Hin%list_elem_of_singleton].
      - injection Hin as -> ->.
        pose proof (Hmax "B" (mkSampleArm 0 0 2) ltac:(right; left)). lra.
      - by injection Hin as -> ->. }
    f_equal. apply set_eq. intros name. rewrite Hmem, elem_of_singleton. split.
    + intros (arm & Hin & Hs).
      apply elem_of_cons in Hin as [Hin|Hin%list_elem_of_singleton].
      * injection Hin as -> ->. lra.
      * by injection Hin as -> ->.
    + intros ->. exists (mkSampleArm 0 0 2). split; [right; left|done].
  - unfold documented_score. cbn [total win loss]. rewrite H3.
    replace (INR 1) with 1 by done. replace (INR 2) with 2 by (simpl; lra).
    apply Rplus_le_lt_compat; [lra|].
    apply sqrt_lt_1_alt. lra.
Qed.

(** * Further properties of the policy *)

(** ** The exploration term *)

Lemma ln_INR_mono (a b : nat) :
  (1 <= a)%nat -> (a <= b)%nat -> ln (INR a) <= ln (INR b).
Proof.
  intros Ha Hab. destruct (decide (a = b)) as [->|Hne]; [lra|].
  left. apply ln_increasing; [by apply INR_pos|]. apply lt_INR. lia.
Qed.


Lemma ln_INR_lt_self (n : nat) : (1 <= n)%nat -> ln (INR n) < INR n.
Proof.
  intros Hn. pose proof (INR_pos n Hn) as Hpos.
  assert (INR n <> 0) as Hnz by lra.
  pose proof (exp_ineq1 (INR n) Hnz) as Hexp.
  rewrite <- (ln_exp (INR n)) at 2. apply ln_increasing; lra.
Qed.



Lemma total_le_number_sampled (arms : py_dict SampleArm) (name : string)
    (arm : SampleArm) :
  (name, arm) ∈ arms -> (total arm <= number_sampled_of arms)%nat.
Proof.
  unfold number_sampled_of, itervalues, sum.
  induction arms as [|[k v] rest IH]; [by intros ?%not_elem_of_nil|].
  intros [Heq|Hin]%elem_of_cons; simpl.
  - injection Heq as <- <-. lia.
  - specialize (IH Hin). lia.
Qed.

Lemma radicand_lt_2 (arms : py_dict SampleArm) (name : string) (arm : SampleArm) :
  (name, arm) ∈ arms -> (1 <= total arm)%nat ->
  2 * ln (INR (total arm)) / INR (number_sampled_of arms) < 2.
Proof.
  intros Hin Ht. pose proof (total_le_number_sampled arms name arm Hin) as Hle.
  assert (1 <= number_sampled_of arms)%nat as Hn by lia.
  pose proof (ln_INR_mono _ _ Ht Hle). pose proof (ln_INR_lt_self _ Hn).
  pose proof (INR_pos _ Hn) as Hpos.
  apply (Rmult_lt_reg_r (INR (number_sampled_of arms))); [done|].
  unfold Rdiv. rewrite Rmult_assoc, Rinv_l by lra. lra.
Qed.

(** X1: in the scoring branch the score computed for an arm lies between
    its average payoff and its average payoff plus [sqrt 2], and an arm
    pulled exactly once gets no exploration bonus at all. *)
Theorem ucb_payoff_bounds (arms : py_dict SampleArm) (name : string)
    (arm : SampleArm) :
  all_sampled arms -> (name, arm) ∈ arms ->
  exists s,
    ucb_payoff (number_sampled_of arms) (name, arm) = Ok (s, name) /\
    avg_payoff arm <= s < avg_payoff arm + sqrt 2 /\
    (total arm = 1%nat -> s = win arm - loss arm).
Proof.
  intros Hall Hin.
  assert (1 <= total arm)%nat as Ht.
  { unfold all_sampled in Hall. rewrite Forall_forall in Hall.
    apply (Hall _ Hin). }
  pose proof (total_le_number_sampled arms name arm Hin) as Hle.
  assert (1 <= number_sampled_of arms)%nat as Hn by lia.
  exists (code_score (number_sampled_of arms) arm).
  split; [by apply ucb_payoff_ok|]. unfold code_score. split.
  - pose proof (radicand_nonneg _ _ Hn Ht) as H0.
    pose proof (radicand_lt_2 arms name arm Hin Ht) as H2.
    pose proof (sqrt_pos (2 * ln (INR (total arm)) / INR (number_sampled_of arms))).
    pose proof (sqrt_lt_1_alt _ 2 (conj H0 H2)).
    lra.
  - intros H1. unfold avg_payoff. rewrite H1. cbn [Nat.ltb Nat.leb].
    replace (INR 1) with 1 by done. rewrite ln_1.
    replace (2 * 0 / INR (number_sampled_of arms)) with 0 by (unfold Rdiv; ring).
    rewrite sqrt_0. lra.
Qed.

Lemma ucb_payoff_bounds_scenario :
  exists s,
    ucb_payoff (number_sampled_of scenario) ("B", mkSampleArm 2 2 4) = Ok (s, "B") /\
    avg_payoff (mkSampleArm 2 2 4) <= s < avg_payoff (mkSampleArm 2 2 4) + sqrt 2 /\
    (total (mkSampleArm 2 2 4) = 1%nat -> s = win (mkSampleArm 2 2 4) - loss (mkSampleArm 2 2 4)).
Proof.
  apply (ucb_payoff_bounds scenario "B" (mkSampleArm 2 2 4)).
  - unfold all_sampled, scenario. repeat constructor; simpl; lia.
  - right. left.
Defined.

(** ** Which arms can win *)






(** X4: when all arms carry the same [(win, loss, total)] triple, every
    arm of the history wins, whether the arms are unsampled or not. *)
Theorem uniform_history_all_arms_win (arms : py_dict SampleArm) (arm0 : SampleArm) :
  arms <> [] -> Forall (fun item => item.2 = arm0) arms ->
  get_winning_arm_names arms = Ok (list_to_set (iterkeys arms)).
Proof.
  intros Hne Hsame. rewrite Forall_forall in Hsame.
  assert (forall name, name ∈ iterkeys arms <-> (name, arm0) ∈ arms) as Hkeys.
  { intros name. unfold iterkeys. rewrite list_elem_of_fmap. split.
    - intros [[k v] [-> Hin]]. by rewrite <- (Hsame _ Hin : v = arm0).
    - intros Hin. by exists (name, arm0). }
  destruct (decide (total arm0 = 0%nat)) as [Hz|Hnz].
  - rewrite winning_unsampled; [|done|].
    + f_equal. apply set_eq. intros name.
      rewrite elem_of_unsampled_names, elem_of_list_to_set, Hkeys. split.
      * intros (arm & Hin & _). by rewrite <- (Hsame _ Hin : arm = arm0).
      * intros Hin. by exists arm0.
    + unfold all_sampled. rewrite Forall_forall. intros Hall.
      destruct arms as [|[k v] rest]; [done|].
      pose proof (Hall (k, v) ltac:(left)) as Hv.
      rewrite (Hsame (k, v) ltac:(left) : v = arm0) in Hv. simpl in Hv. lia.
  - assert (all_sampled arms) as Hall.
    { unfold all_sampled. rewrite Forall_forall. intros [k v] Hin.
      rewrite (Hsame _ Hin : v = arm0). simpl. lia. }
    destruct (winning_scored arms Hne Hall)
      as (best & W & -> & [(bn & ba & Hbin & Hbs) _] & Hmem).
    rewrite (Hsame _ Hbin : ba = arm0) in Hbs.
    f_equal. apply set_eq. intros name.
    rewrite Hmem, elem_of_list_to_set, Hkeys. split.
    + intros (arm & Hin & _). by rewrite <- (Hsame _ Hin : arm = arm0).
    + intros Hin. by exists arm0.
Qed.

Lemma uniform_history_all_arms_win_pair :
  get_winning_arm_names [("A", mkSampleArm 1 2 3); ("B", mkSampleArm 1 2 3)]
    = Ok (list_to_set (iterkeys [("A", mkSampleArm 1 2 3); ("B", mkSampleArm 1 2 3)])).
Proof.
  apply (uniform_history_all_arms_win
           [("A", mkSampleArm 1 2 3); ("B", mkSampleArm 1 2 3)] (mkSampleArm 1 2 3)).
  - discriminate.
  - repeat constructor.
Defined.

(** ** The unsampled set *)

Lemma size_list_to_set_le (l : list string) :
  (size (list_to_set l : gset string) <= length l)%nat.
Proof.
  induction l as [|x xs IH].
  - change (list_to_set [] : gset string) with (∅ : gset string).
    by rewrite size_empty.
  - change (list_to_set (x :: xs) : gset string)
      with ({[x]} ∪ list_to_set xs : gset string).
    rewrite size_union_alt, size_singleton. simpl.
    pose proof (subseteq_size (list_to_set xs ∖ ({[x]} : gset string))
                  (list_to_set xs) ltac:(apply subseteq_difference_l; done)).
    lia.
Qed.

(** X5: on a non-empty dict [get_unsampled_arm_names] returns exactly the
    names bound to an arm with [total = 0]; the set lies within the keys,
    has at most as many elements as the dict has entries, and is empty
    exactly when every arm has been pulled. *)
Theorem get_unsampled_arm_names_characterised (arms : py_dict SampleArm) :
  arms <> [] ->
  exists U,
    get_unsampled_arm_names arms = Ok U /\
    (forall name,
        name ∈ U <-> exists arm, (name, arm) ∈ arms /\ total arm = 0%nat) /\
    U ⊆ list_to_set (iterkeys arms) /\
    (size U <= length arms)%nat /\
    (U = ∅ <-> Forall (fun item => (1 <= total item.2)%nat) arms).
Proof.
  intros Hne. exists (unsampled_names arms).
  split; [by apply get_unsampled_arm_names_ok|].
  split; [apply elem_of_unsampled_names|].
  split; [apply unsampled_names_subseteq|].
  split; [|apply unsampled_names_empty].
  unfold unsampled_names.
  etrans; [apply size_list_to_set_le|].
  rewrite length_map. clear Hne.
  induction arms as [|item rest IH]; simpl; [done|].
  destruct (is_unsampled item); simpl; lia.
Qed.

Lemma get_unsampled_arm_names_characterised_fresh_arms :
  exists U,
    get_unsampled_arm_names fresh_arms = Ok U /\
    (forall name,
        name ∈ U <-> exists arm, (name, arm) ∈ fresh_arms /\ total arm = 0%nat) /\
    U ⊆ list_to_set (iterkeys fresh_arms) /\
    (size U <= length fresh_arms)%nat /\
    (U = ∅ <-> Forall (fun item => (1 <= total item.2)%nat) fresh_arms).
Proof. apply (get_unsampled_arm_names_characterised fresh_arms). discriminate. Defined.

(** X6: as soon as one arm is unsampled, [get_winning_arm_names] returns
    the very set [get_unsampled_arm_names] returns: an arm wins exactly
    when its [total] is 0, whatever the payoffs of the pulled arms. *)
Theorem unsampled_arms_win_whatever_the_payoffs (arms : py_dict SampleArm) :
  NoDup (iterkeys arms) ->
  (exists name arm, (name, arm) ∈ arms /\ total arm = 0%nat) ->
  exists W,
    get_winning_arm_names arms = Ok W /\
    get_unsampled_arm_names arms = Ok W /\
    forall name arm, (name, arm) ∈ arms -> name ∈ W <-> total arm = 0%nat.
Proof.
  intros Hnd (uname & uarm & Huin & Hut).
  assert (arms <> []) as Hne by (intros ->; by apply not_elem_of_nil in Huin).
  exists (unsampled_names arms). split; [|split].
  - apply winning_unsampled; [done|].
    rewrite <- unsampled_names_empty. intros He.
    apply (not_elem_of_empty (C:=gset string) uname).
    rewrite <- He. apply elem_of_unsampled_names. by exists uarm.
  - by apply get_unsampled_arm_names_ok.
  - intros name arm Hin. rewrite elem_of_unsampled_names. split.
    + intros (arm' & Hin' & Hz).
      by rewrite (dict_lookup_unique arms name arm arm').
    + intros Hz. by exists arm.
Qed.

Lemma unsampled_arms_win_whatever_the_payoffs_fresh_arms :
  exists W,
    get_winning_arm_names fresh_arms = Ok W /\
    get_unsampled_arm_names fresh_arms = Ok W /\
    forall name arm, (name, arm) ∈ fresh_arms -> name ∈ W <-> total arm = 0%nat.
Proof.
  apply (unsampled_arms_win_whatever_the_payoffs fresh_arms).
  - by apply (bool_decide_unpack _).
  - exists "C", (mkSampleArm 0 0 0). split; [do 2 right; left|reflexivity].
Defined.

(** ** Exceptions of the two static methods *)

(** X7: [get_unsampled_arm_names] and [get_winning_arm_names] raise on the
    empty dict and on nothing else, and what they raise is
    [ValueError('arms_sampled is empty!')]: the [max], the unpacking, the
    logarithm, the division and the square root of the scoring branch
    never raise. *)
Theorem static_methods_raise_iff_empty (arms : py_dict SampleArm) (e : exception) :
  (get_unsampled_arm_names arms = Raise e <->
     arms = [] /\ e = ValueError "arms_sampled is empty!") /\
  (get_winning_arm_names arms = Raise e <->
     arms = [] /\ e = ValueError "arms_sampled is empty!").
Proof.
  destruct (decide (arms = [])) as [->|Hne].
  - split; (split; [intros He; cbv in He; by injection He as <-|]);
      by intros [_ ->].
  - rewrite get_unsampled_arm_names_ok by done.
    destruct (winning_nonempty_subseteq arms Hne) as (W & -> & _ & _).
    split; (split; [done|by intros [? _]]).
Qed.

(** ** Iteration order and payoffs *)

(** X8: both static methods return the same set for every iteration order
    of the dict, in the unsampled branch and in the scoring branch alike,
    although [max] may pick a different tuple among tied payoffs. *)
Theorem static_methods_order_independent (arms1 arms2 : py_dict SampleArm) :
  arms1 ≡ₚ arms2 ->
  get_unsampled_arm_names arms1 = get_unsampled_arm_names arms2 /\
  get_winning_arm_names arms1 = get_winning_arm_names arms2.
Proof.
  intros Hp. split; [|by apply get_winning_arm_names_perm].
  destruct (decide (arms1 = [])) as [->|Hne1].
  { by apply Permutation_nil in Hp as ->. }
  assert (arms2 <> []) as Hne2.
  { intros ->. by apply Permutation_nil_r in Hp. }
  rewrite !get_unsampled_arm_names_ok by done.
  by rewrite (unsampled_names_perm _ _ Hp).
Qed.

Lemma static_methods_order_independent_twins :
  get_unsampled_arm_names twins = get_unsampled_arm_names (reverse twins) /\
  get_winning_arm_names twins = get_winning_arm_names (reverse twins).
Proof.
  apply (static_methods_order_independent twins (reverse twins)).
  apply Permutation_sym, reverse_Permutation.
Defined.

Lemma ucb_payoff_same_net (n : nat) (x y : string * SampleArm) :
  same_net_payoff x y -> ucb_payoff n x = ucb_payoff n y.
Proof.
  destruct x as [k1 v1], y as [k2 v2]. intros (Hk & Ht & Hd). simpl in *.
  subst k2. unfold ucb_payoff, avg_payoff. by rewrite Ht, Hd.
Qed.

Lemma for_each_ucb_payoff_same_net (n : nat) (arms1 arms2 : py_dict SampleArm) :
  Forall2 same_net_payoff arms1 arms2 ->
  for_each (ucb_payoff n) arms1 = for_each (ucb_payoff n) arms2.
Proof.
  induction 1 as [|x y l1 l2 Hxy _ IH]; [done|].
  cbn [for_each]. by rewrite (ucb_payoff_same_net n x y Hxy), IH.
Qed.

Lemma unsampled_names_same_net (arms1 arms2 : py_dict SampleArm) :
  Forall2 same_net_payoff arms1 arms2 ->
  unsampled_names arms1 = unsampled_names arms2.
Proof.
  intros H. unfold unsampled_names.
  assert (map fst (List.filter is_unsampled arms1)
          = map fst (List.filter is_unsampled arms2)) as ->; [|done].
  induction H as [|x y l1 l2 (Hk & Ht & _) _ IH]; [done|]. simpl.
  replace (is_unsampled x) with (is_unsampled y)
    by (unfold is_unsampled; by rewrite Ht).
  destruct (is_unsampled y); simpl; by rewrite ?Hk, IH.
Qed.

Lemma number_sampled_of_same_net (arms1 arms2 : py_dict SampleArm) :
  Forall2 same_net_payoff arms1 arms2 ->
  number_sampled_of arms1 = number_sampled_of arms2.
Proof.
  unfold number_sampled_of, itervalues, sum.
  induction 1 as [|x y l1 l2 (_ & Ht & _) _ IH]; [done|].
  simpl. by rewrite Ht, IH.
Qed.

(** X9: the payoffs enter the decision through [win - loss] only: two
    histories with the same names and pull counts whose arms have the same
    [win - loss] have the same winning set. *)
Theorem winners_depend_on_net_payoff (arms1 arms2 : py_dict SampleArm) :
  Forall2 same_net_payoff arms1 arms2 ->
  get_winning_arm_names arms1 = get_winning_arm_names arms2.
Proof.
  intros H. destruct (decide (arms1 = [])) as [->|Hne1].
  { by apply Forall2_nil_inv_l in H as ->. }
  assert (arms2 <> []) as Hne2.
  { intros ->. by apply Forall2_nil_inv_r in H. }
  rewrite !get_winning_arm_names_unfold by done.
  rewrite (unsampled_names_same_net _ _ H), (number_sampled_of_same_net _ _ H).
  by rewrite (for_each_ucb_payoff_same_net _ _ _ H).
Qed.

Lemma winners_depend_on_net_payoff_shifted :
  get_winning_arm_names [("A", mkSampleArm 3 1 4); ("B", mkSampleArm 2 2 4)]
    = get_winning_arm_names [("A", mkSampleArm 2 0 4); ("B", mkSampleArm 5 5 4)].
Proof.
  apply (winners_depend_on_net_payoff
           [("A", mkSampleArm 3 1 4); ("B", mkSampleArm 2 2 4)]
           [("A", mkSampleArm 2 0 4); ("B", mkSampleArm 5 5 4)]).
  repeat constructor; simpl; lra.
Defined.






